(** * The parallel deblur command (scripts/parallel_deblur.py)

    A shallow embedding of the [workflow] command of the script and of the
    collaborators it drives, with the properties of the orchestration
    (split, run in parallel, merge) stated over it.

    The script is one Python function.  It touches the file system, calls a
    splitter from QIIME, builds a [ParallelDeblur] object and calls it, and
    finally calls [merge_otu_tables].  The file system and the collaborators
    are an interface ([Env]); the function itself is a computation in a small
    monad that threads the world, stops at the first raised exception and
    records the calls made to the collaborators. *)

From Stdlib Require Import ZArith Ascii String.
From stdpp Require Import base decidable option list strings gmap fin_maps fin_sets.

#[local] Set Warnings "-clear-no-such-hyp".

Local Open Scope Z_scope.
Local Open Scope string_scope.
Local Open Scope list_scope.

(** ** Python values and exceptions *)

(** The exceptions the command can end with.  [NameError] carries the name
    that failed to resolve; the library exceptions carry nothing the
    properties depend on. *)
Inductive exn : Type :=
  | NameError (name : string)
  | ValueError
  | IOError
  | OSError
  | LibraryError (origin : string)
  | DuplicateSample.

Inductive result (A : Type) : Type :=
  | Ok (a : A)
  | Raise (e : exn).
Arguments Ok {A} a.
Arguments Raise {A} e.

Definition is_ok {A} (r : result A) : bool :=
  match r with Ok _ => true | Raise _ => false end.

(** The values stored in the [params] dictionary: an [int] option, or the
    tuple of paths click builds for an option declared [multiple=True]. *)
Inductive pyval : Type :=
  | PInt (z : Z)
  | PTuple (paths : list string).

(** Python's truth value of a [str]. *)
Definition str_truthy (s : string) : bool :=
  match s with EmptyString => false | String _ _ => true end.

(** [s.split(sep)] for a one-character separator: every occurrence cuts,
    empty pieces are kept. *)
Fixpoint str_split (sep : ascii) (s : string) : list string :=
  match s with
  | EmptyString => [EmptyString]
  | String c rest =>
      if Ascii.eqb c sep then EmptyString :: str_split sep rest
      else match str_split sep rest with
           | w :: ws => String c w :: ws
           | [] => [String c EmptyString]
           end
  end.

(** ** os.path *)

Module posixpath.

Definition sep : ascii := "/"%char.

Fixpoint drop_while (P : ascii → bool) (l : list ascii) : list ascii :=
  match l with
  | [] => []
  | c :: l' => if P c then drop_while P l' else l
  end.

Definition is_sep (c : ascii) : bool := Ascii.eqb c sep.

(** [dirname(p)]: [head = p[:p.rfind('/')+1]], and the trailing slashes of
    a head that is not made of slashes only are stripped. *)
Definition dirname (p : string) : string :=
  let rhead := drop_while (λ c, negb (is_sep c)) (rev (list_ascii_of_string p)) in
  if forallb is_sep rhead then string_of_list_ascii (rev rhead)
  else string_of_list_ascii (rev (drop_while is_sep rhead)).

(** [basename(p)]: [p[p.rfind('/')+1:]]. *)
Fixpoint take_while (P : ascii → bool) (l : list ascii) : list ascii :=
  match l with
  | [] => []
  | c :: l' => if P c then c :: take_while P l' else []
  end.

Definition basename (p : string) : string :=
  string_of_list_ascii
    (rev (take_while (λ c, negb (is_sep c)) (rev (list_ascii_of_string p)))).

Definition ends_with_sep (p : string) : bool :=
  match rev (list_ascii_of_string p) with
  | c :: _ => is_sep c
  | [] => false
  end.

Definition starts_with_sep (p : string) : bool :=
  match p with
  | String c _ => is_sep c
  | EmptyString => false
  end.

(** [join(a, b)] for two components. *)
Definition join (a b : string) : string :=
  if starts_with_sep b then b
  else if negb (str_truthy a) || ends_with_sep a then a +:+ b
  else a +:+ "/" +:+ b.

End posixpath.

Import posixpath.

(** ** Feature tables *)

(** Modelled from the spec: the feature table artifact, whose encoding the
    script leaves to its collaborators.  Section 6: a sparse feature by
    sample abundance matrix.  A table has a set of feature identifiers and
    one abundance column per sample; a column holds the non-zero counts. *)
Record table : Type := Table {
  features : gset string;
  columns : gmap string (gmap string Z)
}.

Definition samples (t : table) : gset string := dom (columns t).

Definition empty_table : table := Table ∅ ∅.

(** ** The environment of the command

    What the script imports and does not define: the file system calls of
    [os], [os.path] and [glob], [float], QIIME's splitter and the
    [ParallelDeblur] class.  The world is the state these act on. *)
Class Env : Type := {
  World : Type;
  (** [float] values and [float(s)]; [None] is [ValueError]. *)
  pyfloat : Type;
  float_of_str : string → option pyfloat;
  (** [os.path.exists], [os.path.isfile] *)
  os_exists : string → World → bool;
  os_isfile : string → World → bool;
  (** [os.listdir]; [None] is [OSError] *)
  os_listdir : string → World → option (list string);
  (** [glob.glob] *)
  os_glob : string → World → list string;
  (** [open(path, mode)]; [None] is [IOError] *)
  Handle : Type;
  os_open : string → string → World → option Handle;
  (** [qiime.util.split_sequence_file_on_sample_ids_to_files(seqs, filetype,
      outdir, buffer_size)] *)
  split_sequence_file_on_sample_ids_to_files :
    Handle → string → string → Z → World → result unit * World;
  (** [ParallelDeblur(jobs_to_start=, retain_temp_files=, suppress_polling=)]
      and the call of the object it returns,
      [runner(input_fp=, output_dir=, params=)]. *)
  Runner : Type;
  ParallelDeblur : Z → bool → bool → World → result Runner * World;
  ParallelDeblur_call :
    Runner → list string → string → gmap string pyval → World → result unit * World;
  (** Reading and writing a feature table file, for the merge. *)
  load_table : string → World → option table;
  write_table : string → table → World → World
}.

(** ** The command monad *)

Section Command.
Context `{Env}.

(** The calls the command makes to its collaborators, with the arguments
    it passes, in the order of the run. *)
Inductive call : Type :=
  | CallSplit (seqs_f : Handle) (file_type out_dir_split : string) (buffer_size : Z)
  | CallParallelDeblur (jobs_to_start : Z) (retain_temp_files suppress_polling : bool)
  | CallRunner (runner : Runner) (input_fp : list string) (output_dir : string)
      (params : gmap string pyval).

(** A computation runs in a world and ends with a value or an exception,
    the world it leaves and the calls it has made. *)
Definition M (A : Type) : Type := World → result A * World * list call.

Definition ret {A} (a : A) : M A := λ w, (Ok a, w, []).

Definition raise {A} (e : exn) : M A := λ w, (Raise e, w, []).

Definition bind {A B} (m : M A) (k : A → M B) : M B := λ w,
  match m w with
  | (Ok a, w1, l1) =>
      match k a w1 with
      | (r, w2, l2) => (r, w2, l1 ++ l2)
      end
  | (Raise e, w1, l1) => (Raise e, w1, l1)
  end.

(** Reading the world. *)
Definition ask {A} (f : World → A) : M A := λ w, (Ok (f w), w, []).

(** A library call that may fail: [None] raises [e]. *)
Definition ask_or {A} (e : exn) (f : World → option A) : M A := λ w,
  match f w with
  | Some a => (Ok a, w, [])
  | None => (Raise e, w, [])
  end.

(** Calling a collaborator: the call is recorded, then it acts on the
    world. *)
Definition invoke {A} (c : call) (f : World → result A * World) : M A := λ w,
  match f w with
  | (r, w') => (r, w', [c])
  end.

Definition outcome {A} (x : result A * World * list call) : result A := x.1.1.
Definition final_world {A} (x : result A * World * list call) : World := x.1.2.
Definition calls {A} (x : result A * World * list call) : list call := x.2.

End Command.

Declare Scope cmd_scope.
Delimit Scope cmd_scope with cmd.
Notation "x <- m ;; k" := (bind m (λ x, k))
  (at level 100, m at next level, right associativity) : cmd_scope.
Notation "m ;;; k" := (bind m (λ _, k))
  (at level 100, right associativity) : cmd_scope.

(** ** Name resolution in the module

    A name that is not a local of the function is looked up in the globals
    of the module, then in the builtins.  The globals of the script are the
    names bound by its [import] statements and its two [def]s. *)
Definition module_globals : list string :=
  [ "click";
    "listdir";
    "dirname"; "join"; "isfile"; "exists";
    "glob";
    "parse_fasta";
    "biom_open"; "HAVE_H5PY";
    "split_sequence_file_on_sample_ids_to_files";
    "deblur";
    "launch_workflow"; "trim_seqs"; "dereplicate_seqs";
    "remove_artifacts_seqs"; "multiple_sequence_alignment";
    "remove_chimeras_denovo_from_seqs"; "generate_biom_table";
    "ParallelDeblur";
    "deblur_cmds";
    "workflow" ].

(** The parameters of [workflow] and the names it assigns. *)
Definition workflow_locals : list string :=
  [ "seqs_fp"; "output_fp"; "file_type"; "read_error"; "mean_error";
    "error_dist"; "indel_prob"; "indel_max"; "trim_length"; "min_size";
    "ref_fp"; "ref_db_fp"; "negate"; "threads"; "delim"; "buffer_size";
    "jobs_to_start"; "retain_temp_files"; "suppress_polling";
    "out_dir"; "out_dir_split"; "seqs_f"; "params"; "input_fps";
    "samples_fp"; "f"; "parallel_runner"; "all_bioms" ].

(** The functions of Python's builtin namespace; its other names are the
    constants and the exception classes of the language. *)
Definition builtin_names : list string :=
  [ "abs"; "all"; "any"; "apply"; "basestring"; "bin"; "bool"; "buffer";
    "bytearray"; "bytes"; "callable"; "chr"; "classmethod"; "cmp"; "coerce";
    "compile"; "complex"; "delattr"; "dict"; "dir"; "divmod"; "enumerate";
    "eval"; "execfile"; "file"; "filter"; "float"; "format"; "frozenset";
    "getattr"; "globals"; "hasattr"; "hash"; "help"; "hex"; "id"; "input";
    "int"; "intern"; "isinstance"; "issubclass"; "iter"; "len"; "list";
    "locals"; "long"; "map"; "max"; "memoryview"; "min"; "next"; "object";
    "oct"; "open"; "ord"; "pow"; "print"; "property"; "range"; "raw_input";
    "reduce"; "reload"; "repr"; "reversed"; "round"; "set"; "setattr";
    "slice"; "sorted"; "staticmethod"; "str"; "sum"; "super"; "tuple";
    "type"; "unichr"; "unicode"; "vars"; "xrange"; "zip"; "__import__" ].

Definition name_is_bound (name : string) : bool :=
  bool_decide (name ∈ workflow_locals ++ module_globals ++ builtin_names).

(** ** Merging feature tables *)

(** Modelled from the spec: the merge of two tables under
    [merge_otu_tables], which the script calls and neither defines nor
    imports.  Section 4.5: the result has as feature set the union of the
    input feature sets and as sample set the union of the input sample
    columns; a sample identifier found in two artifacts is the error
    [DuplicateSample]. *)
Definition merge (A B : table) : result table :=
  if bool_decide (samples A ## samples B)
  then Ok (Table (features A ∪ features B) (columns A ∪ columns B))
  else Raise DuplicateSample.

Definition and_then {A B} (r : result A) (k : A → result B) : result B :=
  match r with
  | Ok a => k a
  | Raise e => Raise e
  end.

(** Modelled from the spec: the merge of a set of artifacts, section 4.5.
    They are merged one after the other, in the order given, onto an
    accumulator that starts as the empty table; the first error ends the
    merge. *)
Definition merge_onto (acc : result table) (ts : list table) : result table :=
  foldl (λ acc t, and_then acc (λ m, merge m t)) acc ts.

Definition merge_all (ts : list table) : result table :=
  merge_onto (Ok empty_table) ts.

(** ** The command *)

Section Workflow.
Context `{Env}.
Local Open Scope cmd_scope.

(** The parameters of [workflow], filled by click from the options;
    [file_type] is one of the choices [fasta] and [fastq], the options
    declared [multiple=True] are tuples of paths. *)
Record Args : Type := {
  seqs_fp : string;
  output_fp : string;
  file_type : string;
  read_error : pyfloat;
  mean_error : option pyfloat;
  error_dist : option string;
  indel_prob : pyfloat;
  indel_max : Z;
  trim_length : Z;
  min_size : Z;
  ref_fp : list string;
  ref_db_fp : list string;
  negate : bool;
  threads : Z;
  delim : string;
  buffer_size : Z;
  jobs_to_start : Z;
  retain_temp_files : bool;
  suppress_polling : bool
}.

(** The same options with another [--delim], another
    [--suppress-polling]. *)
Definition with_delim (d : string) (a : Args) : Args := {|
  seqs_fp := seqs_fp a; output_fp := output_fp a; file_type := file_type a;
  read_error := read_error a; mean_error := mean_error a;
  error_dist := error_dist a; indel_prob := indel_prob a;
  indel_max := indel_max a; trim_length := trim_length a;
  min_size := min_size a; ref_fp := ref_fp a; ref_db_fp := ref_db_fp a;
  negate := negate a; threads := threads a; delim := d;
  buffer_size := buffer_size a; jobs_to_start := jobs_to_start a;
  retain_temp_files := retain_temp_files a;
  suppress_polling := suppress_polling a
|}.

Definition with_suppress_polling (b : bool) (a : Args) : Args := {|
  seqs_fp := seqs_fp a; output_fp := output_fp a; file_type := file_type a;
  read_error := read_error a; mean_error := mean_error a;
  error_dist := error_dist a; indel_prob := indel_prob a;
  indel_max := indel_max a; trim_length := trim_length a;
  min_size := min_size a; ref_fp := ref_fp a; ref_db_fp := ref_db_fp a;
  negate := negate a; threads := threads a; delim := delim a;
  buffer_size := buffer_size a; jobs_to_start := jobs_to_start a;
  retain_temp_files := retain_temp_files a;
  suppress_polling := b
|}.

(** Modelled from the spec: [merge_otu_tables(output_fp, all_bioms)], which
    the script calls and neither defines nor imports.  Section 4.5: every
    artifact is read, the tables are merged, and the result is written
    once; an error aborts before the final artifact is written. *)
Definition merge_otu_tables (output_fp : string) (all_bioms : list string) : M unit :=
  tables <- ask_or (LibraryError "biom") (λ w, mapM (λ fp, load_table fp w) all_bioms);;
  match merge_all tables with
  | Ok merged => λ w, (Ok tt, write_table output_fp merged w, [])
  | Raise e => raise e
  end.

(** The value of [error_dist] after lines 113-114: left as it was when it
    is [None] or empty, the list of floats otherwise. *)
Inductive error_dist_value : Type :=
  | ErrorDistRaw (v : option string)
  | ErrorDistFloats (l : list pyfloat).

Definition convert_error_dist (error_dist : option string) : M error_dist_value :=
  match error_dist with
  | Some s =>
      if str_truthy s
      then l <- ask_or ValueError (λ _, mapM float_of_str (str_split "," s));;
           ret (ErrorDistFloats l)
      else ret (ErrorDistRaw error_dist)
  | None => ret (ErrorDistRaw error_dist)
  end.

(** Lines 116-124: split the demultiplexed file on sample identifiers,
    unless the split directory exists. *)
Definition split_step (a : Args) (out_dir_split : string) : M unit :=
  there <- ask (os_exists out_dir_split);;
  if negb there then
    seqs_f <- ask_or IOError (os_open (seqs_fp a) "U");;
    invoke (CallSplit seqs_f (file_type a) out_dir_split (buffer_size a))
      (split_sequence_file_on_sample_ids_to_files
         seqs_f (file_type a) out_dir_split (buffer_size a))
  else ret tt.

(** Lines 126 and 128-130: the [params] dictionary. *)
Definition build_params (a : Args) : gmap string pyval :=
  <["jobs_to_start" := PInt (jobs_to_start a)]>
    (<["ref_fp" := PTuple (ref_fp a)]>
       (<["ref_db_fp" := PTuple (ref_db_fp a)]> ∅)).

(** Lines 125-140: run deblur in parallel on the files of the split
    directory. *)
Definition run_step (a : Args) (out_dir out_dir_split : string) : M unit :=
  let params := build_params a in
  input_fps <- ask (os_glob (out_dir_split +:+ "/*"));;
  names <- ask_or OSError (os_listdir out_dir_split);;
  samples_fp <- ask (λ w, List.filter (λ f, os_isfile f w) names);;
  parallel_runner <-
    invoke (CallParallelDeblur (jobs_to_start a) (retain_temp_files a) (suppress_polling a))
      (ParallelDeblur (jobs_to_start a) (retain_temp_files a) (suppress_polling a));;
  invoke (CallRunner parallel_runner input_fps out_dir params)
    (ParallelDeblur_call parallel_runner input_fps out_dir params).

(** [out_dir_split], lines 115 and 117. *)
Definition split_dir (a : Args) : string := join (dirname (output_fp a)) "split".

(** Lines 112-142: everything before the call of [merge_otu_tables]; the
    value is [all_bioms]. *)
Definition workflow_upto_merge (a : Args) : M (list string) :=
  error_dist' <- convert_error_dist (error_dist a);;
  let out_dir := dirname (output_fp a) in
  let out_dir_split := join out_dir "split" in
  split_step a out_dir_split;;;
  run_step a out_dir out_dir_split;;;
  ask (os_glob (out_dir +:+ "/*.biom")).

(** Loading a global name: [NameError] when nothing binds it. *)
Definition load_global (name : string) : M unit :=
  if name_is_bound name then ret tt else raise (NameError name).

(** Line 143 and the whole function. *)
Definition workflow (a : Args) : M unit :=
  all_bioms <- workflow_upto_merge a;;
  load_global "merge_otu_tables";;;
  merge_otu_tables (output_fp a) all_bioms.

(** The exit status of the process: an exception that leaves the command
    ends the interpreter with status 1, a normal return with status 0. *)
Definition exit_status {A} (r : result A) : Z :=
  match r with
  | Ok _ => 0
  | Raise _ => 1
  end.

End Workflow.

(** ** Sample identifiers, as the specification words them

    Section 4.1: the sample identifier of a record is the substring of its
    label preceding the delimiter.  A label without the delimiter is its own
    identifier. *)
Fixpoint spec_sample_id (delim label : string) : string :=
  match label with
  | EmptyString => EmptyString
  | String c rest =>
      if String.prefix delim label then EmptyString
      else String c (spec_sample_id delim rest)
  end.

(** The distinct sample identifiers of the labels of a file, in order of
    first appearance. *)
Definition spec_sample_ids (delim : string) (labels : list string) : list string :=
  remove_dups (spec_sample_id delim <$> labels).

(** ** An in-memory environment

    A small file system and simple collaborators, to run the command on
    concrete inputs.  A file system is an association list from absolute
    paths to nodes; the first entry of a path is the current one. *)
Module InMemory.

Inductive node : Type :=
  | Dir
  | Fasta (labels : list string)
  | Biom (t : table).

Definition fs : Type := list (string * node).

Fixpoint lookup_path (p : string) (w : fs) : option node :=
  match w with
  | [] => None
  | (q, n) :: w' => if String.eqb p q then Some n else lookup_path p w'
  end.

Definition path_exists (p : string) (w : fs) : bool :=
  match lookup_path p w with Some _ => true | None => false end.

Definition path_isfile (p : string) (w : fs) : bool :=
  match lookup_path p w with
  | Some (Fasta _) | Some (Biom _) => true
  | _ => false
  end.

(** The paths of the entries directly under [d]. *)
Definition entries_of (d : string) (w : fs) : list string :=
  remove_dups
    (List.filter (λ p, String.eqb (dirname p) d && negb (String.eqb p d)) (w.*1)).

Definition listdir (d : string) (w : fs) : option (list string) :=
  match lookup_path d w with
  | Some Dir => Some (basename <$> entries_of d w)
  | _ => None
  end.

(** Shell-style matching of a name against a pattern in which [*] is the
    only special character. *)
Fixpoint fnmatch (pat name : list ascii) : bool :=
  match pat with
  | [] => match name with [] => true | _ => false end
  | c :: pat' =>
      if Ascii.eqb c "*" then
        (fix star (name : list ascii) : bool :=
           fnmatch pat' name ||
           match name with [] => false | _ :: name' => star name' end) name
      else
        match name with
        | c' :: name' => Ascii.eqb c c' && fnmatch pat' name'
        | [] => false
        end
  end.

Definition hidden (name : string) : bool :=
  match name with String "." _ => true | _ => false end.

(** [glob] of a pattern whose directory part has no special character:
    the entries of the directory whose name matches the last component;
    names that start with a dot are not matched by [*]. *)
Definition glob (pat : string) (w : fs) : list string :=
  List.filter
    (λ p, fnmatch (list_ascii_of_string (basename pat)) (list_ascii_of_string (basename p))
          && negb (hidden (basename p)))
    (entries_of (dirname pat) w).

(** A handle on a sequence file gives its record labels. *)
Definition open (p mode : string) (w : fs) : option (list string) :=
  match lookup_path p w with
  | Some (Fasta labels) => Some labels
  | _ => None
  end.

(** A splitter in the style of QIIME's: it creates the directory and
    appends every record to the file of its sample; it is given no
    delimiter and cuts labels at the underscore. *)
Definition add_record (outdir : string) (w : fs) (label : string) : fs :=
  let fp := join outdir (spec_sample_id "_" label +:+ ".fasta") in
  match lookup_path fp w with
  | Some (Fasta ls) => (fp, Fasta (ls ++ [label])) :: w
  | _ => (fp, Fasta [label]) :: w
  end.

Definition split (seqs : list string) (file_type outdir : string) (buffer_size : Z)
    (w : fs) : result unit * fs :=
  (Ok tt, foldl (add_record outdir) ((outdir, Dir) :: w) seqs).

(** A runner that writes one table per input file, next to the final
    output: one sample, the labels of the file as features. *)
Definition table_of (sample : string) (labels : list string) : table :=
  Table (list_to_set labels) {[ sample := list_to_map ((λ l, (l, 1)) <$> labels) ]}.

Definition run_one (output_dir : string) (w : fs) (fp : string) : fs :=
  match lookup_path fp w with
  | Some (Fasta labels) =>
      (join output_dir (basename fp +:+ ".biom"), Biom (table_of (basename fp) labels)) :: w
  | _ => w
  end.

Definition new_runner (jobs_to_start : Z) (retain_temp_files suppress_polling : bool)
    (w : fs) : result (Z * bool * bool) * fs :=
  (Ok (jobs_to_start, retain_temp_files, suppress_polling), w).

Definition call_runner (r : Z * bool * bool) (input_fp : list string)
    (output_dir : string) (params : gmap string pyval) (w : fs) : result unit * fs :=
  (Ok tt, foldl (run_one output_dir) w input_fp).

Definition load (p : string) (w : fs) : option table :=
  match lookup_path p w with
  | Some (Biom t) => Some t
  | _ => None
  end.

Definition env : Env := {|
  World := fs;
  pyfloat := string;
  float_of_str := λ s, if str_truthy s then Some s else None;
  os_exists := path_exists;
  os_isfile := path_isfile;
  os_listdir := listdir;
  os_glob := glob;
  Handle := list string;
  os_open := open;
  split_sequence_file_on_sample_ids_to_files := split;
  Runner := Z * bool * bool;
  ParallelDeblur := new_runner;
  ParallelDeblur_call := call_runner;
  load_table := load;
  write_table := λ p t w, (p, Biom t) :: w
|}.

(** The options of a run, all at their defaults but the paths. *)
Definition default_args (seqs output : string) : @Args env := {|
  seqs_fp := seqs;
  output_fp := output;
  file_type := "fasta";
  read_error := "0.05" : @pyfloat env;
  mean_error := None;
  error_dist := None;
  indel_prob := "0.01" : @pyfloat env;
  indel_max := 3;
  trim_length := 100;
  min_size := 2;
  ref_fp := ["/db/ref.fa"];
  ref_db_fp := [];
  negate := false;
  threads := 1;
  delim := "_";
  buffer_size := 500;
  jobs_to_start := 1;
  retain_temp_files := false;
  suppress_polling := false
|}.

(** A world with a combined file of four records from three samples. *)
Definition w_demo : fs :=
  [ ("/", Dir); ("/data", Dir); ("/out", Dir);
    ("/data/seqs.fna", Fasta ["S1_0"; "S1_1"; "S2_0"; "S3_0"]) ].

(** The same world after a split was left behind. *)
Definition w_split : fs :=
  [ ("/out/split", Dir);
    ("/out/split/S1.fasta", Fasta ["S1_0"; "S1_1"]);
    ("/out/split/S2.fasta", Fasta ["S2_0"]) ] ++ w_demo.

(** The same world with an empty split directory. *)
Definition w_empty_split : fs := ("/out/split", Dir) :: w_demo.

(** Three tables with one sample each, two features in common. *)
Definition t_S1 : table := table_of "S1" ["seqA"; "seqB"].
Definition t_S2 : table := table_of "S2" ["seqB"].
Definition t_S3 : table := table_of "S3" ["seqA"; "seqC"].

(** A world whose labels carry a dot before the underscore. *)
Definition dotted_labels : list string := ["S1.a_0"; "S1.b_0"; "S2.a_0"].

Definition w_dotted : fs :=
  [ ("/", Dir); ("/data", Dir); ("/out", Dir);
    ("/data/seqs.fna", Fasta dotted_labels) ].

End InMemory.


(** ** The dispatcher

    The dispatcher is inside [ParallelDeblur] ([deblur.parallel_deblur]),
    which the script imports; this module follows the specification. *)
Module Dispatcher.

(** Modelled from the spec: the states of a job handle, section 3. *)
Inductive job_state : Type := Queued | Running | Succeeded | Failed.

(** Modelled from the spec: the Dispatcher of [ParallelDeblur].  Sections 2
    and 4.3: descriptors are submitted to a bounded pool of [jobs_to_start]
    execution slots.  The pool has the handles, one per descriptor, and the
    slots; a slot holds the index of the job that runs in it. *)
Record pool : Type := Pool {
  handles : list job_state;
  slots : list (option nat)
}.

(** Modelled from the spec: submission, section 4.3; every handle starts
    [Queued] and every slot free. *)
Definition submit (jobs_to_start : Z) (descriptors : nat) : pool :=
  Pool (replicate descriptors Queued) (replicate (Z.to_nat jobs_to_start) None).

(** Modelled from the spec: section 5, a [Queued] job starts when a slot is
    free, in an order the backend chooses; section 3, a [Running] job ends
    [Succeeded] or [Failed], which are terminal; its slot is free again.
    What the backend can do next is to start a queued job in a slot, or to
    report the end of the job of a slot. *)
Inductive action : Type :=
  | Start (job slot : nat)
  | Finish (slot : nat) (succeeded : bool).

(** Modelled from the spec: one transition of the pool, by the rules
    above; [None] when the action is not enabled. *)
Definition step (p : pool) (act : action) : option pool :=
  match act with
  | Start j k =>
      match handles p !! j, slots p !! k with
      | Some Queued, Some None =>
          Some (Pool (<[j := Running]> (handles p)) (<[k := Some j]> (slots p)))
      | _, _ => None
      end
  | Finish k ok =>
      match slots p !! k with
      | Some (Some j) =>
          Some (Pool (<[j := if ok then Succeeded else Failed]> (handles p))
                     (<[k := None]> (slots p)))
      | _ => None
      end
  end.

(** An action that is not enabled changes nothing. *)
Definition perform (p : pool) (act : action) : pool := default p (step p act).

(** The pools observed along a schedule, the first one included. *)
Fixpoint observed (p : pool) (schedule : list action) : list pool :=
  match schedule with
  | [] => [p]
  | act :: rest => p :: observed (perform p act) rest
  end.

Definition is_running (s : job_state) : bool :=
  match s with Running => true | _ => false end.

Definition is_occupied (s : option nat) : bool :=
  match s with Some _ => true | None => false end.

Definition running (p : pool) : nat := length (List.filter is_running (handles p)).

Definition occupied (p : pool) : nat := length (List.filter is_occupied (slots p)).

(** The invariant of the pool: the job of a slot is running, no job is in
    two slots, and there are as many running jobs as occupied slots. *)
Record consistent (p : pool) : Prop := {
  slot_runs : ∀ k j, slots p !! k = Some (Some j) → handles p !! j = Some Running;
  slot_inj : ∀ k k' j,
    slots p !! k = Some (Some j) → slots p !! k' = Some (Some j) → k = k';
  count_eq : running p = occupied p
}.

End Dispatcher.

(** ** Replaying a run

    What the recorded calls do to the world, and what the function reads of
    its options. *)

Section Replay.
Context `{Env}.



(** Lines 113-114 raise nothing: [error_dist] is [None] or empty, or every
    piece between commas is accepted by [float]. *)
Definition error_dist_converts (a : Args) : bool :=
  match error_dist a with
  | Some s =>
      if str_truthy s
      then match mapM float_of_str (str_split "," s) with
           | Some _ => true
           | None => false
           end
      else true
  | None => true
  end.

(** Lines 115-142, the steps after the conversion of [error_dist]. *)
Definition after_convert (a : Args) : M (list string) :=
  bind (split_step a (split_dir a)) (λ _,
  bind (run_step a (dirname (output_fp a)) (split_dir a)) (λ _,
  ask (os_glob (dirname (output_fp a) +:+ "/*.biom")))).

(** Two sets of options that agree on every option the body of [workflow]
    reads after line 114. *)
Definition same_work (a1 a2 : Args) : Prop :=
  seqs_fp a1 = seqs_fp a2
  ∧ output_fp a1 = output_fp a2
  ∧ file_type a1 = file_type a2
  ∧ ref_fp a1 = ref_fp a2
  ∧ ref_db_fp a1 = ref_db_fp a2
  ∧ buffer_size a1 = buffer_size a2
  ∧ jobs_to_start a1 = jobs_to_start a2
  ∧ retain_temp_files a1 = retain_temp_files a2
  ∧ suppress_polling a1 = suppress_polling a2.

(** The same options with another [--error-dist]. *)
Definition with_error_dist (e : option string) (a : Args) : Args := {|
  seqs_fp := seqs_fp a; output_fp := output_fp a; file_type := file_type a;
  read_error := read_error a; mean_error := mean_error a;
  error_dist := e; indel_prob := indel_prob a;
  indel_max := indel_max a; trim_length := trim_length a;
  min_size := min_size a; ref_fp := ref_fp a; ref_db_fp := ref_db_fp a;
  negate := negate a; threads := threads a; delim := delim a;
  buffer_size := buffer_size a; jobs_to_start := jobs_to_start a;
  retain_temp_files := retain_temp_files a;
  suppress_polling := suppress_polling a
|}.

End Replay.

(** The global names the body of [workflow] loads, lines 113-143, in the
    order of their first use. *)
Definition workflow_global_loads : list string :=
  [ "list"; "map"; "float";
    "dirname"; "join"; "exists"; "open";
    "split_sequence_file_on_sample_ids_to_files";
    "glob"; "listdir"; "isfile";
    "ParallelDeblur";
    "merge_otu_tables" ].

(** A path has no separator. *)
Definition no_sep (name : string) : bool :=
  forallb (λ c, negb (is_sep c)) (list_ascii_of_string name).

(** ** Further runs in memory *)
Module Scenarios.

(** The split path exists and is a regular file. *)
Definition w_split_is_file : InMemory.fs :=
  ("/out/split", InMemory.Fasta []) :: InMemory.w_demo.

(** The in-memory environment with a splitter that raises. *)
Definition failing_split (seqs : list string) (file_type outdir : string)
    (buffer_size : Z) (w : InMemory.fs) : result unit * InMemory.fs :=
  (Raise (LibraryError "qiime"), w).

Definition env_failing_split : Env := {|
  World := InMemory.fs;
  pyfloat := string;
  float_of_str := λ s, if str_truthy s then Some s else None;
  os_exists := InMemory.path_exists;
  os_isfile := InMemory.path_isfile;
  os_listdir := InMemory.listdir;
  os_glob := InMemory.glob;
  Handle := list string;
  os_open := InMemory.open;
  split_sequence_file_on_sample_ids_to_files := failing_split;
  Runner := Z * bool * bool;
  ParallelDeblur := InMemory.new_runner;
  ParallelDeblur_call := InMemory.call_runner;
  load_table := InMemory.load;
  write_table := λ p t w, (p, InMemory.Biom t) :: w
|}.

(** The in-memory environment with a runner whose call raises after it has
    written the table of the first file. *)
Definition failing_runner (r : Z * bool * bool) (input_fp : list string)
    (output_dir : string) (params : gmap string pyval) (w : InMemory.fs)
    : result unit * InMemory.fs :=
  (Raise (LibraryError "deblur"), foldl (InMemory.run_one output_dir) w (take 1 input_fp)).

Definition env_failing_runner : Env := {|
  World := InMemory.fs;
  pyfloat := string;
  float_of_str := λ s, if str_truthy s then Some s else None;
  os_exists := InMemory.path_exists;
  os_isfile := InMemory.path_isfile;
  os_listdir := InMemory.listdir;
  os_glob := InMemory.glob;
  Handle := list string;
  os_open := InMemory.open;
  split_sequence_file_on_sample_ids_to_files := InMemory.split;
  Runner := Z * bool * bool;
  ParallelDeblur := InMemory.new_runner;
  ParallelDeblur_call := failing_runner;
  load_table := InMemory.load;
  write_table := λ p t w, (p, InMemory.Biom t) :: w
|}.

Definition args_in (E : Env) (seqs output : string) (f1 f2 : @pyfloat E) : @Args E := {|
  seqs_fp := seqs;
  output_fp := output;
  file_type := "fasta";
  read_error := f1;
  mean_error := None;
  error_dist := None;
  indel_prob := f2;
  indel_max := 3;
  trim_length := 100;
  min_size := 2;
  ref_fp := ["/db/ref.fa"];
  ref_db_fp := [];
  negate := false;
  threads := 1;
  delim := "_";
  buffer_size := 500;
  jobs_to_start := 1;
  retain_temp_files := false;
  suppress_polling := false
|}.

(** Other values for the options the function does not read. *)
Definition other_args (seqs output : string) : @Args InMemory.env := {|
  seqs_fp := seqs;
  output_fp := output;
  file_type := "fasta";
  read_error := "0.1" : @pyfloat InMemory.env;
  mean_error := Some ("0.2" : @pyfloat InMemory.env);
  error_dist := Some "1,0.06,0.02";
  indel_prob := "0.5" : @pyfloat InMemory.env;
  indel_max := 7;
  trim_length := 150;
  min_size := 10;
  ref_fp := ["/db/ref.fa"];
  ref_db_fp := [];
  negate := true;
  threads := 8;
  delim := ".";
  buffer_size := 500;
  jobs_to_start := 1;
  retain_temp_files := false;
  suppress_polling := false
|}.

End Scenarios.

(** * Properties *)

(** ** Name resolution *)

Lemma merge_otu_tables_unbound : name_is_bound "merge_otu_tables" = false.
Proof. vm_compute. reflexivity. Qed.

Lemma imported_names_bound :
  name_is_bound "split_sequence_file_on_sample_ids_to_files" = true
  ∧ name_is_bound "ParallelDeblur" = true
  ∧ name_is_bound "glob" = true.
Proof. vm_compute. auto. Qed.

Section WorkflowProperties.
Context `{Env}.
Local Open Scope cmd_scope.

Implicit Types (a : Args) (w : World) (c : call).

(** The last line: whatever the steps before it leave, the lookup of the
    name fails, in the same world and with no further call. *)
Lemma workflow_unfold a w :
  workflow a w =
    match workflow_upto_merge a w with
    | (Ok _, w1, l1) => (Raise (NameError "merge_otu_tables"), w1, l1)
    | (Raise e, w1, l1) => (Raise e, w1, l1)
    end.
Proof.
  unfold workflow, bind at 1.
  destruct (workflow_upto_merge a w) as [[[bioms|e] w1] l1]; [|done].
  unfold bind, load_global. rewrite merge_otu_tables_unbound.
  unfold raise. by rewrite app_nil_r.
Qed.

Lemma workflow_calls a w : calls (workflow a w) = calls (workflow_upto_merge a w).
Proof.
  rewrite workflow_unfold.
  by destruct (workflow_upto_merge a w) as [[[bioms|e] w1] l1].
Qed.


Lemma workflow_not_ok a w : is_ok (outcome (workflow a w)) = false.
Proof.
  rewrite workflow_unfold.
  by destruct (workflow_upto_merge a w) as [[[bioms|e] w1] l1].
Qed.

(** C1.  Every run of [workflow] that reaches the merge step, that is,
    whose steps before line 143 all return, raises [NameError] for
    [merge_otu_tables], in the world those steps left; the name is bound
    neither by the module nor by the builtins.  So no run of the command
    returns normally. *)
Theorem workflow_raises_NameError a w :
  name_is_bound "merge_otu_tables" = false
  ∧ (∀ all_bioms w1 l1,
       workflow_upto_merge a w = (Ok all_bioms, w1, l1) →
       workflow a w = (Raise (NameError "merge_otu_tables"), w1, l1))
  ∧ (∀ u, outcome (workflow a w) ≠ Ok u).
Proof.
  split; [apply merge_otu_tables_unbound|]. split.
  - intros all_bioms w1 l1 Hpre. by rewrite workflow_unfold, Hpre.
  - intros u Hu. pose proof (workflow_not_ok a w) as Hno.
    by rewrite Hu in Hno.
Qed.

(** ** The calls of a run, step by step *)

Lemma calls_bind {A B} (m : M A) (k : A → M B) w c :
  c ∈ calls (bind m k w) →
  c ∈ calls (m w) ∨ ∃ x w1 l1, m w = (Ok x, w1, l1) ∧ c ∈ calls (k x w1).
Proof.
  unfold bind, calls. destruct (m w) as [[[x|e] w1] l1]; simpl; [|by left].
  destruct (k x w1) as [[r w2] l2] eqn:Hk; simpl.
  intros [Hc|Hc]%elem_of_app; [by left|].
  right. exists x, w1, l1. by rewrite Hk.
Qed.

Lemma ask_spec {A} (f : World → A) w : ask f w = (Ok (f w), w, []).
Proof. done. Qed.

Lemma convert_error_dist_pure o w :
  final_world (convert_error_dist o w) = w ∧ calls (convert_error_dist o w) = [].
Proof.
  unfold convert_error_dist. destruct o as [s|]; [|done].
  destruct (str_truthy s); [|done].
  unfold bind, ask_or. by destruct (mapM float_of_str (str_split "," s)).
Qed.

(** The guard of line 118 looks at the existence of the directory and at
    nothing else. *)
Lemma split_step_skipped a d w :
  os_exists d w = true → split_step a d w = (Ok tt, w, []).
Proof. intros Hex. unfold split_step, bind, ask. by rewrite Hex. Qed.

Lemma split_step_attempted a d w h :
  os_exists d w = false →
  os_open (seqs_fp a) "U" w = Some h →
  calls (split_step a d w) = [CallSplit h (file_type a) d (buffer_size a)].
Proof.
  intros Hex Hop. unfold split_step, bind, ask, ask_or, invoke. simpl.
  rewrite Hex. simpl. rewrite Hop. simpl.
  by destruct (split_sequence_file_on_sample_ids_to_files _ _ _ _ _).
Qed.

Lemma split_step_calls a d w c :
  c ∈ calls (split_step a d w) →
  os_exists d w = false
  ∧ ∃ h, os_open (seqs_fp a) "U" w = Some h
         ∧ c = CallSplit h (file_type a) d (buffer_size a).
Proof.
  unfold split_step, bind, ask, ask_or, invoke.
  destruct (os_exists d w); simpl; [by intros ?%elem_of_nil|].
  destruct (os_open (seqs_fp a) "U" w) as [h|]; simpl; [|by intros ?%elem_of_nil].
  destruct (split_sequence_file_on_sample_ids_to_files _ _ _ _ _) as [r w']; simpl.
  intros ->%list_elem_of_singleton. eauto.
Qed.

Lemma run_step_calls a out d w c :
  c ∈ calls (run_step a out d w) →
  c = CallParallelDeblur (jobs_to_start a) (retain_temp_files a) (suppress_polling a)
  ∨ ∃ r, c = CallRunner r (os_glob (d +:+ "/*") w) out (build_params a).
Proof.
  unfold run_step, bind, ask, ask_or, invoke.
  destruct (os_listdir d w) as [names|]; simpl; [|by intros ?%elem_of_nil].
  destruct (ParallelDeblur _ _ _ w) as [[r|e] w1]; simpl.
  - destruct (ParallelDeblur_call _ _ _ _ w1) as [r' w2]; simpl.
    rewrite !elem_of_cons. intros [->|[->|?%elem_of_nil]]; [by left|right; eauto|done].
  - intros ->%list_elem_of_singleton. by left.
Qed.

(** Every call of a run: the splitter on the split directory, when the
    directory did not exist; then the constructor; then the runner on the
    files of the split directory, with the dictionary of [build_params]. *)
Lemma upto_merge_calls a w c :
  c ∈ calls (workflow_upto_merge a w) →
  (os_exists (split_dir a) w = false
   ∧ ∃ h, os_open (seqs_fp a) "U" w = Some h
          ∧ c = CallSplit h (file_type a) (split_dir a) (buffer_size a))
  ∨ c = CallParallelDeblur (jobs_to_start a) (retain_temp_files a) (suppress_polling a)
  ∨ ∃ r w1 l1,
      split_step a (split_dir a) w = (Ok tt, w1, l1)
      ∧ c = CallRunner r (os_glob (split_dir a +:+ "/*") w1)
              (dirname (output_fp a)) (build_params a).
Proof.
  unfold workflow_upto_merge. fold (split_dir a).
  intros [Hc|(v & w0 & l0 & Hconv & Hc)]%calls_bind.
  { destruct (convert_error_dist_pure (error_dist a) w) as [_ Hnil].
    rewrite Hnil in Hc. by apply elem_of_nil in Hc. }
  assert (w0 = w) as ->.
  { destruct (convert_error_dist_pure (error_dist a) w) as [Hw _].
    by rewrite Hconv in Hw. }
  apply calls_bind in Hc as [Hc|([] & w1 & l1 & Hsplit & Hc)].
  { left. by apply split_step_calls. }
  apply calls_bind in Hc as [Hc|(? & w2 & l2 & Hrun & Hc)].
  - apply run_step_calls in Hc as [->|[r ->]]; [by right; left|].
    right; right. eauto.
  - by apply elem_of_nil in Hc.
Qed.

(** The value of the steps before the merge is the scan of the output
    directory for [*.biom], in the world they leave. *)
Lemma upto_merge_value a w all_bioms w1 l1 :
  workflow_upto_merge a w = (Ok all_bioms, w1, l1) →
  all_bioms = os_glob (dirname (output_fp a) +:+ "/*.biom") w1.
Proof.
  unfold workflow_upto_merge, bind.
  destruct (convert_error_dist _ w) as [[[v|e] w0] l0]; [|done].
  destruct (split_step _ _ w0) as [[[u|e] w2] l2]; [|done].
  destruct (run_step _ _ _ w2) as [[[u'|e] w3] l3]; [|done].
  rewrite ask_spec. by intros [= <- <- _].
Qed.

(** The options [--delim] and [--suppress-polling]: the first is read
    nowhere; the second reaches the constructor and nothing else. *)
Lemma upto_merge_ignores_delim a d w :
  workflow_upto_merge (with_delim d a) w = workflow_upto_merge a w.
Proof. reflexivity. Qed.

Lemma workflow_ignores_delim a d w : workflow (with_delim d a) w = workflow a w.
Proof. reflexivity. Qed.

Lemma exit_status_always_one a w : exit_status (outcome (workflow a w)) = 1.
Proof.
  rewrite workflow_unfold.
  by destruct (workflow_upto_merge a w) as [[[bioms|e] w1] l1].
Qed.

Lemma build_params_dom a :
  dom (build_params a) = ({["ref_db_fp"; "ref_fp"; "jobs_to_start"]} : gset string).
Proof. unfold build_params. rewrite !dom_insert_L, dom_empty_L. set_solver. Qed.

Lemma build_params_lookup a k :
  build_params a !! k =
    if decide (k = "jobs_to_start") then Some (PInt (jobs_to_start a))
    else if decide (k = "ref_fp") then Some (PTuple (ref_fp a))
    else if decide (k = "ref_db_fp") then Some (PTuple (ref_db_fp a))
    else None.
Proof.
  unfold build_params. repeat case_decide; subst; by simplify_map_eq.
Qed.

End WorkflowProperties.

Lemma workflow_raises_NameError_witness :
  let a := InMemory.default_args "/data/seqs.fna" "/out/table.biom" in
  ∃ all_bioms w1 l1,
    @workflow_upto_merge InMemory.env a InMemory.w_demo = (Ok all_bioms, w1, l1)
    ∧ @workflow InMemory.env a InMemory.w_demo
      = (Raise (NameError "merge_otu_tables"), w1, l1).
Proof.
  intros a. eexists _, _, _. split; [reflexivity|].
  destruct (@workflow_raises_NameError InMemory.env a InMemory.w_demo)
    as (_ & Hraise & _).
  eapply Hraise. reflexivity.
Defined.

(** ** The split step *)

(** C5.  When the split directory exists and is not empty, the partition
    step does nothing: it makes no call and leaves the world, hence the
    content of the directory, as it found it; the run never calls the
    splitter, and the runner is given the files that were already there. *)
Theorem existing_split_is_not_redone `{Env} (a : Args) (w : World)
    (entry : string) (entries : list string) :
  os_exists (split_dir a) w = true →
  os_listdir (split_dir a) w = Some (entry :: entries) →
  split_step a (split_dir a) w = (Ok tt, w, [])
  ∧ (∀ h ft d b, CallSplit h ft d b ∉ calls (workflow a w))
  ∧ (∀ r fps out p,
       CallRunner r fps out p ∈ calls (workflow a w) →
       fps = os_glob (split_dir a +:+ "/*") w).
Proof.
  intros Hex _. split; [by apply split_step_skipped|]. split.
  - intros h ft d b Hc. rewrite workflow_calls in Hc.
    apply upto_merge_calls in Hc as [(Hno & _)|[?|(? & ? & ? & _ & ?)]]; [|done..].
    by rewrite Hex in Hno.
  - intros r fps out p Hc. rewrite workflow_calls in Hc.
    apply upto_merge_calls in Hc as [(_ & ? & _ & ?)|[?|(r' & w1 & l1 & Hs & Hc)]];
      [done..|].
    rewrite (split_step_skipped a _ w Hex) in Hs. by simplify_eq.
Qed.

Lemma existing_split_is_not_redone_witness :
  let a := InMemory.default_args "/data/seqs.fna" "/out/table.biom" in
  @os_exists InMemory.env (split_dir a) InMemory.w_split = true
  ∧ @os_listdir InMemory.env (split_dir a) InMemory.w_split
    = Some ["S1.fasta"; "S2.fasta"]
  ∧ @split_step InMemory.env a (split_dir a) InMemory.w_split
    = (Ok tt, InMemory.w_split, []).
Proof.
  intros a. split; [reflexivity|]. split; [reflexivity|].
  apply (proj1 (@existing_split_is_not_redone InMemory.env a InMemory.w_split
                  "S1.fasta" ["S2.fasta"] eq_refl eq_refl)).
Defined.

(** C10.  The splitter is only ever called on
    [join(dirname(output_fp), "split")], and only when that path does not
    exist.  When it exists, empty or not, the split step makes no call and
    changes nothing, the run never calls the splitter, and the runner is
    given the files found there: none when the directory is empty.  When it
    does not exist and the input opens, the splitter is called. *)
Theorem split_guard_checks_existence_only `{Env} (a : Args) (w : World) :
  let d := join (dirname (output_fp a)) "split" in
  (∀ h ft d' b, CallSplit h ft d' b ∈ calls (workflow a w) →
     d' = d ∧ os_exists d w = false)
  ∧ (os_exists d w = true →
       split_step a d w = (Ok tt, w, [])
       ∧ (∀ h ft d' b, CallSplit h ft d' b ∉ calls (workflow a w))
       ∧ (os_glob (d +:+ "/*") w = [] →
          ∀ r fps out p, CallRunner r fps out p ∈ calls (workflow a w) → fps = []))
  ∧ (os_exists d w = false →
       ∀ h, os_open (seqs_fp a) "U" w = Some h →
       calls (split_step a d w) = [CallSplit h (file_type a) d (buffer_size a)]).
Proof.
  intros d. split; [|split].
  - intros h ft d' b Hc. rewrite workflow_calls in Hc.
    apply upto_merge_calls in Hc as [(Hno & h' & _ & Hc)|[?|(? & ? & ? & _ & ?)]];
      [|done..].
    by simplify_eq.
  - intros Hex. split; [by apply split_step_skipped|]. split.
    + intros h ft d' b Hc. rewrite workflow_calls in Hc.
      apply upto_merge_calls in Hc as [(Hno & _)|[?|(? & ? & ? & _ & ?)]]; [|done..].
      unfold split_dir in Hno. fold d in Hno. by rewrite Hex in Hno.
    + intros Hempty r fps out p Hc. rewrite workflow_calls in Hc.
      apply upto_merge_calls in Hc as [(_ & ? & _ & ?)|[?|(r' & w1 & l1 & Hs & Hc)]];
        [done..|].
      unfold split_dir in Hs, Hc. fold d in Hs, Hc.
      rewrite (split_step_skipped a d w Hex) in Hs. simplify_eq. done.
  - intros Hno h Hop. by apply split_step_attempted.
Qed.

Lemma split_guard_checks_existence_only_witness :
  let a := InMemory.default_args "/data/seqs.fna" "/out/table.biom" in
  @os_exists InMemory.env "/out/split" InMemory.w_empty_split = true
  ∧ @os_listdir InMemory.env "/out/split" InMemory.w_empty_split = Some []
  ∧ @split_step InMemory.env a "/out/split" InMemory.w_empty_split
    = (Ok tt, InMemory.w_empty_split, []).
Proof.
  intros a. split; [reflexivity|]. split; [reflexivity|].
  destruct (@split_guard_checks_existence_only InMemory.env a InMemory.w_empty_split)
    as (_ & Hskip & _).
  apply Hskip. reflexivity.
Defined.

(** ** The options that do not reach the work *)

(** C3.  The value of [--delim] changes nothing: the function never reads
    it, and the splitter is not given it, so two runs that differ in the
    delimiter only are the same run.  On labels with a dot before the
    underscore and [--delim .], the files the splitter of the in-memory
    environment writes are those of the underscore, three of them, where the
    identifiers cut at the dot are two. *)
Theorem delim_option_is_ignored :
  (∀ (E : Env) (a : Args) (d : string) (w : World),
     workflow (with_delim d a) w = workflow a w)
  ∧ (let a := with_delim "." (InMemory.default_args "/data/seqs.fna" "/out/table.biom") in
     let w' := final_world (@workflow InMemory.env a InMemory.w_dotted) in
     basename <$> @os_glob InMemory.env "/out/split/*" w'
       = ["S2.a.fasta"; "S1.b.fasta"; "S1.a.fasta"]
     ∧ spec_sample_ids (delim a) InMemory.dotted_labels = ["S1"; "S2"]).
Proof.
  split.
  - intros E a d w. apply workflow_ignores_delim.
  - split; vm_compute; reflexivity.
Qed.

(** C4.  The dictionary the runner is called with is the one of
    [build_params]: its keys are [ref_db_fp], [ref_fp] and [jobs_to_start],
    with the values of the options, and it holds nothing else; the error
    model, the trim length, the indel model, the abundance threshold and
    the negate flag are not in it under any key. *)
Theorem runner_params_hold_three_keys `{Env} (a : Args) (w : World)
    (r : Runner) (fps : list string) (out : string) (p : gmap string pyval) :
  CallRunner r fps out p ∈ calls (workflow a w) →
  dom p = ({["ref_db_fp"; "ref_fp"; "jobs_to_start"]} : gset string)
  ∧ p !! "ref_db_fp" = Some (PTuple (ref_db_fp a))
  ∧ p !! "ref_fp" = Some (PTuple (ref_fp a))
  ∧ p !! "jobs_to_start" = Some (PInt (jobs_to_start a))
  ∧ (∀ k, k ∈ ["read_error"; "mean_error"; "error_dist"; "trim_length";
               "indel_prob"; "indel_max"; "min_size"; "negate"] →
          p !! k = None).
Proof.
  intros Hc. rewrite workflow_calls in Hc.
  apply upto_merge_calls in Hc as [(_ & ? & _ & ?)|[?|(r' & w1 & l1 & _ & Hc)]];
    [done..|].
  simplify_eq. split; [apply build_params_dom|].
  rewrite !build_params_lookup. repeat split.
  intros k Hk. rewrite build_params_lookup.
  repeat (apply elem_of_cons in Hk as [->|Hk]; [done|]).
  by apply elem_of_nil in Hk.
Qed.

Lemma runner_params_hold_three_keys_witness :
  let a := InMemory.default_args "/data/seqs.fna" "/out/table.biom" in
  ∃ r fps out p,
    calls (@workflow InMemory.env a InMemory.w_split)
      = [CallParallelDeblur 1 false false; CallRunner r fps out p]
    ∧ dom p = ({["ref_db_fp"; "ref_fp"; "jobs_to_start"]} : gset string)
    ∧ p !! "read_error" = None.
Proof.
  intros a. eexists _, _, _, _. split; [reflexivity|].
  match goal with
  | |- dom ?p = _ ∧ _ =>
      destruct (@runner_params_hold_three_keys InMemory.env a InMemory.w_split
                  (1, false, false)
                  ["/out/split/S1.fasta"; "/out/split/S2.fasta"] "/out" p)
        as (Hdom & _ & _ & _ & Hnone)
  end.
  - apply list_elem_of_further, list_elem_of_here.
  - split; [exact Hdom|]. apply Hnone, list_elem_of_here.
Defined.

(** ** The end of the run *)

(** C2.  With [--suppress-polling] set, the flag reaches the constructor of
    the runner and nothing else: the call of [merge_otu_tables] is not
    guarded by it.  A run whose steps before the merge return goes on to
    that call and ends in [NameError]; no such run returns. *)
Theorem suppressed_polling_still_reaches_merge `{Env} (a : Args) (w : World) :
  suppress_polling a = true →
  (∀ j t s, CallParallelDeblur j t s ∈ calls (workflow a w) → s = true)
  ∧ (∀ all_bioms w1 l1,
       workflow_upto_merge a w = (Ok all_bioms, w1, l1) →
       workflow a w = (Raise (NameError "merge_otu_tables"), w1, l1))
  ∧ (∀ u, outcome (workflow a w) ≠ Ok u).
Proof.
  intros Hflag. split; [|split].
  - intros j t s Hc. rewrite workflow_calls in Hc.
    apply upto_merge_calls in Hc as [(_ & ? & _ & ?)|[?|(? & ? & ? & _ & ?)]];
      [done| |done].
    by simplify_eq.
  - intros all_bioms w1 l1 Hpre. by rewrite workflow_unfold, Hpre.
  - intros u Hu. pose proof (workflow_not_ok a w) as Hno. by rewrite Hu in Hno.
Qed.

Lemma suppressed_polling_still_reaches_merge_witness :
  let a := with_suppress_polling true
             (InMemory.default_args "/data/seqs.fna" "/out/table.biom") in
  suppress_polling a = true
  ∧ outcome (@workflow_upto_merge InMemory.env a InMemory.w_split)
    = Ok ["/out/S2.fasta.biom"; "/out/S1.fasta.biom"]
  ∧ outcome (@workflow InMemory.env a InMemory.w_split)
    = Raise (NameError "merge_otu_tables").
Proof.
  intros a. split; [reflexivity|]. split; [reflexivity|].
  destruct (@suppressed_polling_still_reaches_merge InMemory.env a InMemory.w_split
              eq_refl) as (_ & Hraise & _).
  erewrite Hraise; reflexivity.
Defined.

(** C9.  The exit status of the command is 1 on every run: also on a run
    in which the split, the construction of the runner and the runner all
    returned and the tables were found. *)
Theorem exit_status_is_never_zero :
  (∀ (E : Env) (a : Args) (w : World), exit_status (outcome (workflow a w)) = 1)
  ∧ (let a := InMemory.default_args "/data/seqs.fna" "/out/table.biom" in
     outcome (@workflow_upto_merge InMemory.env a InMemory.w_demo)
       = Ok ["/out/S1.fasta.biom"; "/out/S2.fasta.biom"; "/out/S3.fasta.biom"]
     ∧ exit_status (outcome (@workflow InMemory.env a InMemory.w_demo)) = 1).
Proof.
  split.
  - intros E a w. apply exit_status_always_one.
  - split; vm_compute; reflexivity.
Qed.

(** ** The merge *)

Section MergeProperties.

Implicit Types (A B C : table) (ts : list table).

Lemma merge_disjoint A B :
  samples A ## samples B →
  merge A B = Ok (Table (features A ∪ features B) (columns A ∪ columns B)).
Proof. intros Hd. unfold merge. by rewrite bool_decide_eq_true_2. Qed.

Lemma merge_duplicate A B :
  ¬ samples A ## samples B → merge A B = Raise DuplicateSample.
Proof. intros Hd. unfold merge. by rewrite bool_decide_eq_false_2. Qed.

Lemma merge_ok_inv A B m :
  merge A B = Ok m →
  samples A ## samples B
  ∧ m = Table (features A ∪ features B) (columns A ∪ columns B).
Proof.
  unfold merge. case_bool_decide; [|done]. intros [= <-]. done.
Qed.

Lemma samples_merged A B :
  samples (Table (features A ∪ features B) (columns A ∪ columns B))
  = samples A ∪ samples B.
Proof. unfold samples. simpl. apply dom_union_L. Qed.

Lemma merge_comm A B : merge A B = merge B A.
Proof.
  destruct (decide (samples A ## samples B)) as [Hd|Hd].
  - rewrite (merge_disjoint A B Hd), (merge_disjoint B A) by done.
    f_equal. f_equal; [apply (comm_L (∪))|].
    apply map_union_comm. by apply map_disjoint_dom.
  - rewrite (merge_duplicate A B Hd), (merge_duplicate B A); [done|].
    intros Hd'. by apply Hd.
Qed.

Lemma merge_assoc A B C :
  and_then (merge A B) (λ AB, merge AB C) = and_then (merge B C) (λ BC, merge A BC).
Proof.
  destruct (decide (samples A ## samples B)) as [Hab|Hab];
    destruct (decide (samples B ## samples C)) as [Hbc|Hbc];
    destruct (decide (samples A ## samples C)) as [Hac|Hac].
  - rewrite (merge_disjoint A B Hab), (merge_disjoint B C Hbc). simpl.
    rewrite !merge_disjoint; rewrite ?samples_merged; [|set_solver..].
    simpl. f_equal. f_equal; [by rewrite (assoc_L (∪))|].
    by rewrite (assoc_L (∪)).
  - rewrite (merge_disjoint A B Hab), (merge_disjoint B C Hbc). simpl.
    rewrite !merge_duplicate; rewrite ?samples_merged; [done|set_solver..].
  - rewrite (merge_disjoint A B Hab), (merge_duplicate B C Hbc). simpl.
    rewrite merge_duplicate; rewrite ?samples_merged; [done|set_solver].
  - rewrite (merge_disjoint A B Hab), (merge_duplicate B C Hbc). simpl.
    rewrite merge_duplicate; rewrite ?samples_merged; [done|set_solver].
  - rewrite (merge_duplicate A B Hab), (merge_disjoint B C Hbc). simpl.
    rewrite merge_duplicate; rewrite ?samples_merged; [done|set_solver].
  - rewrite (merge_duplicate A B Hab), (merge_disjoint B C Hbc). simpl.
    rewrite merge_duplicate; rewrite ?samples_merged; [done|set_solver].
  - by rewrite (merge_duplicate A B Hab), (merge_duplicate B C Hbc).
  - by rewrite (merge_duplicate A B Hab), (merge_duplicate B C Hbc).
Qed.

Lemma merge_onto_raise e ts : merge_onto (Raise e) ts = Raise e.
Proof. induction ts as [|t ts IH]; [done|]. simpl. apply IH. Qed.

(** Two tables merged onto an accumulator go in either order. *)
Lemma merge_swap (acc : result table) A B :
  and_then (and_then acc (λ m, merge m A)) (λ m, merge m B)
  = and_then (and_then acc (λ m, merge m B)) (λ m, merge m A).
Proof.
  destruct acc as [m|e]; [|done]. simpl.
  rewrite (merge_assoc m A B), (merge_assoc m B A).
  by rewrite (merge_comm A B).
Qed.

Lemma merge_onto_perm acc ts ts' :
  ts ≡ₚ ts' → merge_onto acc ts = merge_onto acc ts'.
Proof.
  intros Hp. revert acc.
  induction Hp as [|t ts ts' _ IH|t t' ts|ts ts' ts'' _ IH1 _ IH2]; intros acc.
  - done.
  - simpl. apply IH.
  - simpl. by rewrite merge_swap.
  - by rewrite IH1.
Qed.

Lemma merge_onto_unions m ts merged :
  merge_onto (Ok m) ts = Ok merged →
  features merged = features m ∪ ⋃ (features <$> ts)
  ∧ samples merged = samples m ∪ ⋃ (samples <$> ts).
Proof.
  revert m. induction ts as [|t ts IH]; intros m; simpl.
  - intros [= <-]. split; set_solver.
  - destruct (merge m t) as [mt|e] eqn:Hm; [|by rewrite merge_onto_raise].
    apply merge_ok_inv in Hm as [_ ->].
    intros [-> ->]%IH. rewrite samples_merged. simpl. split; set_solver.
Qed.

Lemma merge_all_unions ts merged :
  merge_all ts = Ok merged →
  features merged = ⋃ (features <$> ts) ∧ samples merged = ⋃ (samples <$> ts).
Proof.
  intros [-> ->]%merge_onto_unions. unfold samples. simpl.
  rewrite dom_empty_L. split; set_solver.
Qed.

End MergeProperties.

(** C8.  For tables with pairwise disjoint sample columns the merge
    succeeds and is commutative and associative, and the merge of a list of
    tables is the same for every order of the list. *)
Theorem merge_commutative_associative (A B C : table) :
  samples A ## samples B →
  samples A ## samples C →
  samples B ## samples C →
  merge A B = merge B A
  ∧ is_ok (merge A B) = true
  ∧ and_then (merge A B) (λ AB, merge AB C) = and_then (merge B C) (λ BC, merge A BC)
  ∧ is_ok (and_then (merge A B) (λ AB, merge AB C)) = true
  ∧ (∀ ts ts', ts ≡ₚ ts' → merge_all ts = merge_all ts').
Proof.
  intros Hab Hac Hbc. split; [apply merge_comm|]. split.
  { by rewrite (merge_disjoint A B Hab). }
  split; [apply merge_assoc|]. split.
  - rewrite (merge_disjoint A B Hab). simpl.
    rewrite merge_disjoint; [done|]. rewrite samples_merged. set_solver.
  - intros ts ts' Hp. by apply merge_onto_perm.
Qed.

Lemma merge_commutative_associative_witness :
  samples InMemory.t_S1 ## samples InMemory.t_S2
  ∧ merge InMemory.t_S1 InMemory.t_S2 = merge InMemory.t_S2 InMemory.t_S1
  ∧ and_then (merge InMemory.t_S1 InMemory.t_S2) (λ AB, merge AB InMemory.t_S3)
    = and_then (merge InMemory.t_S2 InMemory.t_S3) (λ BC, merge InMemory.t_S1 BC).
Proof.
  assert (samples InMemory.t_S1 ## samples InMemory.t_S2) as Hab
    by (apply (bool_decide_unpack _); vm_compute; exact I).
  assert (samples InMemory.t_S1 ## samples InMemory.t_S3) as Hac
    by (apply (bool_decide_unpack _); vm_compute; exact I).
  assert (samples InMemory.t_S2 ## samples InMemory.t_S3) as Hbc
    by (apply (bool_decide_unpack _); vm_compute; exact I).
  destruct (merge_commutative_associative _ _ _ Hab Hac Hbc) as (Hc & _ & Ha & _).
  split; [exact Hab|]. split; [exact Hc|exact Ha].
Defined.

(** C7.  A run whose steps before the merge return has scanned the output
    directory for [*.biom], in the world the runner left, and then ends in
    the [NameError] of [merge_otu_tables]: the list is handed to nothing,
    the world stays the one the runner left, and what can be read at the
    output path is what was there before the merge step.  No merged table is
    produced. *)
Theorem merge_step_scans_then_raises `{Env} (a : Args) (w w1 : World)
    (all_bioms : list string) (l1 : list call) :
  workflow_upto_merge a w = (Ok all_bioms, w1, l1) →
  all_bioms = os_glob (dirname (output_fp a) +:+ "/*.biom") w1
  ∧ workflow a w = (Raise (NameError "merge_otu_tables"), w1, l1)
  ∧ load_table (output_fp a) (final_world (workflow a w)) = load_table (output_fp a) w1
  ∧ (∀ tables merged,
       mapM (λ fp, load_table fp w1) all_bioms = Some tables →
       merge_all tables = Ok merged →
       workflow a w ≠ merge_otu_tables (output_fp a) all_bioms w1).
Proof.
  intros Hpre. split; [by eapply upto_merge_value|].
  assert (workflow a w = (Raise (NameError "merge_otu_tables"), w1, l1)) as Hrun
    by by rewrite workflow_unfold, Hpre.
  split; [done|]. split; [by rewrite Hrun|].
  intros tables merged Hload Hall. rewrite Hrun.
  unfold merge_otu_tables, bind, ask_or. rewrite Hload, Hall. done.
Qed.

Lemma merge_step_scans_then_raises_witness :
  let a := InMemory.default_args "/data/seqs.fna" "/out/table.biom" in
  ∃ w1 l1,
    @workflow_upto_merge InMemory.env a InMemory.w_split
      = (Ok ["/out/S2.fasta.biom"; "/out/S1.fasta.biom"], w1, l1)
    ∧ @workflow InMemory.env a InMemory.w_split
      = (Raise (NameError "merge_otu_tables"), w1, l1)
    ∧ @load_table InMemory.env "/out/table.biom"
        (final_world (@workflow InMemory.env a InMemory.w_split)) = None
    ∧ is_ok (outcome (@merge_otu_tables InMemory.env "/out/table.biom"
                        ["/out/S2.fasta.biom"; "/out/S1.fasta.biom"] w1)) = true.
Proof.
  intros a. eexists _, _. split; [reflexivity|].
  split.
  - eapply (@merge_step_scans_then_raises InMemory.env a InMemory.w_split).
    reflexivity.
  - split; reflexivity.
Defined.

(** ** The dispatcher *)

Module DispatcherFacts.
Import Dispatcher.

Local Open Scope nat_scope.

(** Counting the elements that satisfy [f] after one update. *)
Lemma count_insert {A} (f : A → bool) (l : list A) (i : nat) (x y : A) :
  l !! i = Some y →
  length (List.filter f (<[i:=x]> l)) + Nat.b2n (f y)
  = length (List.filter f l) + Nat.b2n (f x).
Proof.
  revert i. induction l as [|z l IH]; intros [|i] Hi; simplify_eq/=.
  - destruct (f x), (f y); simpl; lia.
  - specialize (IH i Hi). destruct (f z); simpl; lia.
Qed.

Lemma count_le {A} (f : A → bool) (l : list A) :
  length (List.filter f l) ≤ length l.
Proof. induction l as [|z l IH]; simpl; [lia|]. destruct (f z); simpl; lia. Qed.

Lemma count_replicate_none {A} (f : A → bool) (x : A) (n : nat) :
  f x = false → length (List.filter f (replicate n x)) = 0.
Proof. intros Hx. induction n as [|n IH]; simpl; [done|]. by rewrite Hx. Qed.

Lemma submit_consistent (jobs_to_start : Z) (n : nat) :
  consistent (submit jobs_to_start n).
Proof.
  split; simpl.
  - by intros k j [? _]%lookup_replicate.
  - by intros k k' j [? _]%lookup_replicate.
  - unfold running, occupied. simpl. by rewrite !count_replicate_none.
Qed.

Lemma step_slots_length p act p' :
  step p act = Some p' → length (slots p') = length (slots p).
Proof.
  destruct act as [j k|k ok]; simpl; intros Hs;
    repeat case_match; simplify_eq/=; by rewrite length_insert.
Qed.

Lemma start_consistent p j k :
  consistent p →
  handles p !! j = Some Queued →
  slots p !! k = Some None →
  consistent (Pool (<[j := Running]> (handles p)) (<[k := Some j]> (slots p))).
Proof.
  intros [Hrun Hinj Hcount] Hj Hk.
  assert (j < length (handles p)) by by eapply lookup_lt_Some.
  assert (k < length (slots p)) by by eapply lookup_lt_Some.
  split; simpl.
  - intros k' j' Hk'. destruct (decide (k' = k)) as [->|Hne].
    + rewrite list_lookup_insert_eq in Hk' by done. simplify_eq.
      by rewrite list_lookup_insert_eq.
    + rewrite list_lookup_insert_ne in Hk' by done.
      specialize (Hrun _ _ Hk').
      rewrite list_lookup_insert_ne; [done|]. intros <-. congruence.
  - intros k1 k2 j' H1 H2.
    destruct (decide (k1 = k)) as [->|Hne1]; destruct (decide (k2 = k)) as [->|Hne2];
      [done|..].
    + rewrite list_lookup_insert_eq in H1 by done.
      rewrite list_lookup_insert_ne in H2 by done. simplify_eq.
      specialize (Hrun _ _ H2). congruence.
    + rewrite list_lookup_insert_eq in H2 by done.
      rewrite list_lookup_insert_ne in H1 by done. simplify_eq.
      specialize (Hrun _ _ H1). congruence.
    + rewrite list_lookup_insert_ne in H1, H2 by done. eauto.
  - unfold running, occupied in *. simpl in *.
    pose proof (count_insert is_running (handles p) j Running Queued Hj) as Hh.
    pose proof (count_insert is_occupied (slots p) k (Some j) None Hk) as Hs.
    simpl in Hh, Hs. lia.
Qed.

Lemma finish_consistent p j k (s : job_state) :
  consistent p →
  slots p !! k = Some (Some j) →
  is_running s = false →
  consistent (Pool (<[j := s]> (handles p)) (<[k := None]> (slots p))).
Proof.
  intros [Hrun Hinj Hcount] Hk Hs.
  pose proof (Hrun _ _ Hk) as Hj.
  assert (k < length (slots p)) by by eapply lookup_lt_Some.
  split; simpl.
  - intros k' j' Hk'. destruct (decide (k' = k)) as [->|Hne].
    + by rewrite list_lookup_insert_eq in Hk'.
    + rewrite list_lookup_insert_ne in Hk' by done.
      rewrite list_lookup_insert_ne; [by eapply Hrun|].
      intros <-. apply Hne. by eapply Hinj.
  - intros k1 k2 j' H1 H2.
    destruct (decide (k1 = k)) as [->|Hne1].
    { by rewrite list_lookup_insert_eq in H1. }
    destruct (decide (k2 = k)) as [->|Hne2].
    { by rewrite list_lookup_insert_eq in H2. }
    rewrite list_lookup_insert_ne in H1, H2 by done. eauto.
  - unfold running, occupied in *. simpl in *.
    pose proof (count_insert is_running (handles p) j s Running Hj) as Hh.
    pose proof (count_insert is_occupied (slots p) k None (Some j) Hk) as Hc.
    rewrite Hs in Hh. simpl in Hh, Hc. lia.
Qed.

Lemma step_consistent p act p' :
  consistent p → step p act = Some p' → consistent p'.
Proof.
  intros Hp. destruct act as [j k|k ok]; simpl; intros Hs.
  - destruct (handles p !! j) as [[]|] eqn:Hj; try done.
    destruct (slots p !! k) as [[]|] eqn:Hk; try done.
    simplify_eq. by apply start_consistent.
  - destruct (slots p !! k) as [[j|]|] eqn:Hk; try done.
    simplify_eq. apply finish_consistent; [done..|by destruct ok].
Qed.

Lemma perform_consistent p act :
  consistent p → consistent (perform p act).
Proof.
  intros Hp. unfold perform. destruct (step p act) as [p'|] eqn:Hs; simpl; [|done].
  by eapply step_consistent.
Qed.

Lemma perform_slots_length p act :
  length (slots (perform p act)) = length (slots p).
Proof.
  unfold perform. destruct (step p act) as [p'|] eqn:Hs; simpl; [|done].
  by eapply step_slots_length.
Qed.

Lemma observed_consistent p schedule q :
  consistent p → q ∈ observed p schedule →
  consistent q ∧ length (slots q) = length (slots p).
Proof.
  revert p. induction schedule as [|act rest IH]; intros p Hp; simpl.
  - by intros ->%list_elem_of_singleton.
  - intros [->|Hq]%elem_of_cons; [done|].
    destruct (IH _ (perform_consistent p act Hp) Hq) as [Hc Hl].
    split; [done|]. by rewrite Hl, perform_slots_length.
Qed.

(** A pool of slots never runs more jobs than it has slots. *)
Lemma pool_bound (jobs_to_start : Z) (descriptors : nat)
    (schedule : list action) (q : pool) :
  q ∈ observed (submit jobs_to_start descriptors) schedule →
  running q ≤ Z.to_nat jobs_to_start.
Proof.
  intros Hq.
  destruct (observed_consistent _ _ _ (submit_consistent jobs_to_start descriptors) Hq)
    as [[_ _ Hcount] Hlen].
  simpl in Hlen. rewrite length_replicate in Hlen.
  pose proof (count_le is_occupied (slots q)) as Hle.
  unfold occupied in Hcount. lia.
Qed.

End DispatcherFacts.

(** C6.  The runner is constructed with the value of [--jobs-to-start];
    and for a positive value, whatever the number of jobs submitted to the
    dispatcher and whatever the backend does, every pool observed along the
    run has at most that many jobs in the [Running] state. *)
Theorem running_never_exceeds_jobs_to_start `{Env} (a : Args) (w : World)
    (descriptors : nat) (schedule : list Dispatcher.action) (q : Dispatcher.pool) :
  (0 < jobs_to_start a)%Z →
  q ∈ Dispatcher.observed (Dispatcher.submit (jobs_to_start a) descriptors) schedule →
  (∀ j t s, CallParallelDeblur j t s ∈ calls (workflow a w) → j = jobs_to_start a)
  ∧ (Z.of_nat (Dispatcher.running q) ≤ jobs_to_start a)%Z.
Proof.
  intros Hpos Hq. split.
  - intros j t s Hc. rewrite workflow_calls in Hc.
    apply upto_merge_calls in Hc as [(_ & ? & _ & ?)|[?|(? & ? & ? & _ & ?)]];
      [done| |done].
    by simplify_eq.
  - apply DispatcherFacts.pool_bound in Hq. lia.
Qed.

Lemma running_never_exceeds_jobs_to_start_witness :
  let a := InMemory.default_args "/data/seqs.fna" "/out/table.biom" in
  let schedule :=
    [Dispatcher.Start 0 0; Dispatcher.Start 1 0; Dispatcher.Finish 0 true;
     Dispatcher.Start 1 0] in
  let q := Dispatcher.perform (Dispatcher.submit 1 3) (Dispatcher.Start 0 0) in
  (0 < jobs_to_start a)%Z
  ∧ Dispatcher.running q = 1%nat
  ∧ (Z.of_nat (Dispatcher.running q) ≤ jobs_to_start a)%Z.
Proof.
  intros a schedule q. split; [reflexivity|]. split; [reflexivity|].
  apply (@running_never_exceeds_jobs_to_start InMemory.env a InMemory.w_split
           3%nat schedule q); [reflexivity|].
  apply list_elem_of_further, list_elem_of_here.
Defined.

(** * Further properties of the command *)

(** ** Strings and paths *)

Lemma str_split_nonempty sep s : str_split sep s ≠ [].
Proof.
  destruct s as [|c rest]; simpl; [done|].
  destruct (Ascii.eqb c sep); [done|]. by destruct (str_split sep rest).
Qed.

(** Joining the pieces of [s.split(sep)] with [sep] gives [s] back, and no
    piece contains [sep]. *)
Theorem str_split_concat (sep : ascii) (s : string) :
  String.concat (String sep EmptyString) (str_split sep s) = s
  ∧ Forall (λ piece, sep ∉ list_ascii_of_string piece) (str_split sep s).
Proof.
  induction s as [|c rest [IHc IHf]]; simpl.
  - split; [done|]. repeat constructor. by intros ?%elem_of_nil.
  - destruct (Ascii.eqb_spec c sep) as [->|Hne].
    + split.
      * pose proof (str_split_nonempty sep rest).
        destruct (str_split sep rest) as [|w ws] eqn:Hs; [done|].
        simpl in *. by rewrite IHc.
      * constructor; [by intros ?%elem_of_nil|done].
    + destruct (str_split sep rest) as [|w ws] eqn:Hs.
      { by destruct (str_split_nonempty sep rest). }
      apply Forall_cons in IHf as [Hw Hws]. split.
      * destruct ws as [|w' ws]; simpl in *; by rewrite <- IHc.
      * constructor; [|done]. simpl. intros [?|?]%elem_of_cons; [congruence|done].
Qed.

(** After a separator at the end comes a last, empty piece. *)
Lemma str_split_trailing_last sep s :
  ∃ w ws, str_split sep (s +:+ String sep EmptyString) = (w :: ws) ++ [EmptyString].
Proof.
  induction s as [|c rest (w & ws & IH)]; simpl.
  - rewrite Ascii.eqb_refl. by exists EmptyString, [].
  - destruct (Ascii.eqb c sep).
    + rewrite IH. by exists EmptyString, (w :: ws).
    + rewrite IH. simpl. by exists (String c w), ws.
Qed.

Lemma str_split_trailing sep s :
  EmptyString ∈ str_split sep (s +:+ String sep EmptyString).
Proof.
  destruct (str_split_trailing_last sep s) as (w & ws & ->).
  apply elem_of_app. right. apply list_elem_of_here.
Qed.

Lemma list_ascii_app (s1 s2 : string) :
  list_ascii_of_string (s1 +:+ s2) = list_ascii_of_string s1 ++ list_ascii_of_string s2.
Proof. induction s1 as [|c s1 IH]; simpl; [done|]. by rewrite IH. Qed.

Lemma drop_while_stops (P : ascii → bool) (l1 l2 : list ascii) (x : ascii) :
  forallb P l1 = true → P x = false → drop_while P (l1 ++ x :: l2) = x :: l2.
Proof.
  intros Hall Hx. induction l1 as [|c l1 IH]; simpl in *.
  - by rewrite Hx.
  - apply andb_prop in Hall as [Hc Hl]. rewrite Hc. by apply IH.
Qed.

Lemma forallb_rev (P : ascii → bool) (l : list ascii) :
  forallb P (rev l) = forallb P l.
Proof.
  induction l as [|c l IH]; simpl; [done|].
  rewrite forallb_app, IH. simpl. rewrite andb_true_r. apply andb_comm.
Qed.

Lemma dirname_of_child (d name : string) :
  no_sep name = true → d ≠ EmptyString → ends_with_sep d = false →
  dirname (d +:+ ("/" +:+ name)) = d.
Proof.
  intros Hname Hd Hend. unfold dirname, no_sep, ends_with_sep in *.
  rewrite !list_ascii_app. simpl.
  rewrite rev_app_distr. simpl. rewrite <- app_assoc. simpl.
  rewrite drop_while_stops; [|by rewrite forallb_rev|done].
  destruct (rev (list_ascii_of_string d)) as [|c r] eqn:Hr.
  { destruct d; [done|]. simpl in Hr. by destruct (rev (list_ascii_of_string d)). }
  cbn [forallb drop_while]. change (is_sep "/") with true.
  cbn [andb drop_while]. rewrite Hend. cbn [andb].
  rewrite <- Hr, rev_involutive. apply string_of_list_ascii_of_string.
Qed.

Lemma join_child (d name : string) :
  starts_with_sep name = false → d ≠ EmptyString → ends_with_sep d = false →
  join d name = d +:+ ("/" +:+ name).
Proof.
  intros Hn Hd Hend. unfold join. rewrite Hn, Hend.
  by destruct d.
Qed.

Section PathProperties.
Context `{Env}.

(** For an output file [d/name], with [d] not empty and not ending in a
    slash and [name] without a slash, the output directory of the runner is
    [d] and the split directory is [d/split]: the splitter is called on no
    other directory, the runner with no other output directory. *)
Theorem split_dir_of_output (a : Args) (w : World) (d name : string) :
  output_fp a = d +:+ ("/" +:+ name) →
  no_sep name = true →
  d ≠ EmptyString →
  ends_with_sep d = false →
  split_dir a = d +:+ "/split"
  ∧ (∀ h ft d' b, CallSplit h ft d' b ∈ calls (workflow a w) → d' = d +:+ "/split")
  ∧ (∀ r fps out p, CallRunner r fps out p ∈ calls (workflow a w) → out = d).
Proof.
  intros Hout Hname Hd Hend.
  assert (dirname (output_fp a) = d) as Hdir by (rewrite Hout; by apply dirname_of_child).
  assert (split_dir a = d +:+ "/split") as Hsplit.
  { unfold split_dir. rewrite Hdir. by apply join_child. }
  split; [done|]. split.
  - intros h ft d' b Hc. rewrite workflow_calls in Hc.
    apply upto_merge_calls in Hc as [(_ & ? & _ & ?)|[?|(? & ? & ? & _ & ?)]]; [|done..].
    simplify_eq. done.
  - intros r fps out p Hc. rewrite workflow_calls in Hc.
    apply upto_merge_calls in Hc as [(_ & ? & _ & ?)|[?|(? & ? & ? & _ & ?)]]; [done..|].
    by simplify_eq.
Qed.

End PathProperties.

Lemma split_dir_of_output_witness :
  let a := InMemory.default_args "/data/seqs.fna" "/out/table.biom" in
  output_fp a = "/out" +:+ ("/" +:+ "table.biom")
  ∧ no_sep "table.biom" = true
  ∧ ends_with_sep "/out" = false
  ∧ @split_dir InMemory.env a = "/out/split".
Proof.
  intros a. split; [reflexivity|]. split; [reflexivity|]. split; [reflexivity|].
  apply (@split_dir_of_output InMemory.env a InMemory.w_demo "/out" "table.biom");
    [reflexivity|reflexivity|discriminate|reflexivity].
Defined.

(** ** Name resolution *)

(** Of the global names the body of [workflow] loads, [merge_otu_tables] is
    the only one that nothing binds. *)
Theorem merge_otu_tables_only_unbound_name (name : string) :
  name ∈ workflow_global_loads →
  (name_is_bound name = false ↔ name = "merge_otu_tables").
Proof.
  unfold workflow_global_loads. intros Hin.
  repeat (apply elem_of_cons in Hin as [->|Hin]; [by vm_compute|]).
  by apply elem_of_nil in Hin.
Qed.

Lemma merge_otu_tables_only_unbound_name_witness :
  "ParallelDeblur" ∈ workflow_global_loads
  ∧ (name_is_bound "ParallelDeblur" = false ↔ "ParallelDeblur" = "merge_otu_tables").
Proof.
  assert ("ParallelDeblur" ∈ workflow_global_loads) as Hin
    by (apply (bool_decide_unpack _); vm_compute; exact I).
  split; [exact Hin|]. exact (merge_otu_tables_only_unbound_name _ Hin).
Defined.

(** ** The run, case by case *)

Section RunProperties.
Context `{Env}.
Local Open Scope cmd_scope.

Implicit Types (a : Args) (w : World) (c : call).

Lemma convert_ok a w :
  error_dist_converts a = true →
  ∃ v, convert_error_dist (error_dist a) w = (Ok v, w, []).
Proof.
  unfold error_dist_converts, convert_error_dist.
  destruct (error_dist a) as [s|]; [|by eexists].
  destruct (str_truthy s); [|by eexists].
  unfold bind, ask_or, ret.
  destruct (mapM float_of_str (str_split "," s)); [by eexists|done].
Qed.

Lemma convert_fails a w :
  error_dist_converts a = false →
  convert_error_dist (error_dist a) w = (Raise ValueError, w, []).
Proof.
  unfold error_dist_converts, convert_error_dist.
  destruct (error_dist a) as [s|]; [|done].
  destruct (str_truthy s); [|done].
  unfold bind, ask_or.
  by destruct (mapM float_of_str (str_split "," s)).
Qed.

Lemma upto_merge_converted a w :
  error_dist_converts a = true →
  workflow_upto_merge a w = after_convert a w.
Proof.
  intros [v Hv]%(convert_ok _ w).
  unfold workflow_upto_merge, bind at 1. rewrite Hv.
  fold (split_dir a). fold (after_convert a).
  by destruct (after_convert a w) as [[r w2] l2].
Qed.

Lemma workflow_not_converted a w :
  error_dist_converts a = false →
  workflow a w = (Raise ValueError, w, []).
Proof.
  intros Hv%(convert_fails _ w).
  rewrite workflow_unfold. unfold workflow_upto_merge, bind at 1. by rewrite Hv.
Qed.

(** A piece of a non-empty [--error-dist] that [float] rejects ends the run
    with [ValueError] before anything is done: no collaborator is called
    and the world is as it was. *)
Theorem bad_error_dist_raises_ValueError a w (s piece : string) :
  error_dist a = Some s →
  s ≠ EmptyString →
  piece ∈ str_split "," s →
  float_of_str piece = None →
  workflow a w = (Raise ValueError, w, []).
Proof.
  intros Hs Hne Hin Hnone. apply workflow_not_converted.
  unfold error_dist_converts. rewrite Hs.
  assert (str_truthy s = true) as -> by by destruct s.
  rewrite (mapM_None_2 float_of_str); [done|].
  apply Exists_exists. eauto.
Qed.

(** An [--error-dist] that ends in a comma has an empty last piece: where
    [float] rejects the empty string, as Python's does, the run ends with
    [ValueError] and nothing is done. *)
Theorem trailing_comma_raises_ValueError a w (s : string) :
  error_dist a = Some (s +:+ ",") →
  float_of_str EmptyString = None →
  workflow a w = (Raise ValueError, w, []).
Proof.
  intros Hs Hnone. apply workflow_not_converted.
  unfold error_dist_converts. rewrite Hs.
  assert (str_truthy (s +:+ ",") = true) as -> by by destruct s.
  rewrite (mapM_None_2 float_of_str); [done|].
  apply Exists_exists. exists EmptyString. split; [|done].
  apply str_split_trailing.
Qed.

(** An empty [--error-dist] is not converted: the run is the one without
    the option, whatever [float] does. *)
Lemma empty_error_dist_converts a :
  error_dist a = Some EmptyString → error_dist_converts a = true.
Proof. unfold error_dist_converts. by intros ->. Qed.

(** The run depends on the options through [seqs_fp], [output_fp],
    [file_type], [ref_fp], [ref_db_fp], [buffer_size], [jobs_to_start],
    [retain_temp_files] and [suppress_polling] only: two sets of options
    that agree on these, and whose [error_dist] both convert, give the same
    outcome, the same world and the same calls.  The read and mean error,
    the converted error distribution, the indel options, the trim length,
    the minimal size, the negate flag, the threads and the delimiter change
    nothing. *)
Theorem unread_options_change_nothing (a1 a2 : Args) w :
  same_work a1 a2 →
  error_dist_converts a1 = true →
  error_dist_converts a2 = true →
  workflow a1 w = workflow a2 w.
Proof.
  intros (Hseqs & Hout & Hft & Href & Hdb & Hbuf & Hjobs & Hret & Hsup) Hc1 Hc2.
  rewrite !workflow_unfold, !upto_merge_converted by done.
  unfold after_convert, split_dir, split_step, run_step, build_params.
  by rewrite Hseqs, Hout, Hft, Href, Hdb, Hbuf, Hjobs, Hret, Hsup.
Qed.

End RunProperties.

Lemma bad_error_dist_raises_ValueError_witness :
  let a := with_error_dist (Some "0.1,x,,0.2")
             (InMemory.default_args "/data/seqs.fna" "/out/table.biom") in
  EmptyString ∈ str_split "," "0.1,x,,0.2"
  ∧ @float_of_str InMemory.env EmptyString = None
  ∧ @workflow InMemory.env a InMemory.w_demo = (Raise ValueError, InMemory.w_demo, []).
Proof.
  intros a.
  assert (EmptyString ∈ str_split "," "0.1,x,,0.2") as Hin
    by (apply (bool_decide_unpack _); vm_compute; exact I).
  split; [exact Hin|]. split; [reflexivity|].
  apply (@bad_error_dist_raises_ValueError InMemory.env a InMemory.w_demo
           "0.1,x,,0.2" EmptyString); [reflexivity|discriminate|exact Hin|reflexivity].
Defined.

Lemma trailing_comma_raises_ValueError_witness :
  let a := with_error_dist (Some "1,0.06,")
             (InMemory.default_args "/data/seqs.fna" "/out/table.biom") in
  @float_of_str InMemory.env EmptyString = None
  ∧ @workflow InMemory.env a InMemory.w_demo = (Raise ValueError, InMemory.w_demo, []).
Proof.
  intros a. split; [reflexivity|].
  apply (@trailing_comma_raises_ValueError InMemory.env a InMemory.w_demo "1,0.06");
    reflexivity.
Defined.

Lemma unread_options_change_nothing_witness :
  let a1 := InMemory.default_args "/data/seqs.fna" "/out/table.biom" in
  let a2 := Scenarios.other_args "/data/seqs.fna" "/out/table.biom" in
  same_work a1 a2
  ∧ error_dist_converts a2 = true
  ∧ @workflow InMemory.env a1 InMemory.w_demo = @workflow InMemory.env a2 InMemory.w_demo.
Proof.
  intros a1 a2.
  assert (same_work a1 a2) as Hsame by (repeat split; reflexivity).
  split; [exact Hsame|]. split; [reflexivity|].
  apply (@unread_options_change_nothing InMemory.env a1 a2 InMemory.w_demo Hsame);
    reflexivity.
Defined.

Section RunCases.
Context `{Env}.
Local Open Scope cmd_scope.

Implicit Types (a : Args) (w : World) (c : call).

Lemma workflow_converted a w :
  error_dist_converts a = true →
  workflow a w =
    match after_convert a w with
    | (Ok _, w1, l1) => (Raise (NameError "merge_otu_tables"), w1, l1)
    | (Raise e, w1, l1) => (Raise e, w1, l1)
    end.
Proof. intros Hc. by rewrite workflow_unfold, upto_merge_converted. Qed.

(** When the split directory does not exist and the input cannot be opened,
    the run ends with [IOError]; nothing is called and nothing changes. *)
Theorem unreadable_input_raises_IOError a w :
  error_dist_converts a = true →
  os_exists (split_dir a) w = false →
  os_open (seqs_fp a) "U" w = None →
  workflow a w = (Raise IOError, w, []).
Proof.
  intros Hc Hex Hop. rewrite workflow_converted by done.
  unfold after_convert, split_step, bind, ask, ask_or. simpl.
  rewrite Hex. simpl. by rewrite Hop.
Qed.

(** An exception of the splitter is the outcome of the run: the splitter
    is the only call made, the runner is neither constructed nor called,
    and the world is the one the splitter left. *)
Theorem splitter_failure_ends_run a w (seqs_f : Handle) (e : exn) (w1 : World) :
  error_dist_converts a = true →
  os_exists (split_dir a) w = false →
  os_open (seqs_fp a) "U" w = Some seqs_f →
  split_sequence_file_on_sample_ids_to_files
    seqs_f (file_type a) (split_dir a) (buffer_size a) w = (Raise e, w1) →
  workflow a w
  = (Raise e, w1, [CallSplit seqs_f (file_type a) (split_dir a) (buffer_size a)]).
Proof.
  intros Hc Hex Hop Hsplit. rewrite workflow_converted by done.
  unfold after_convert, split_step, bind, ask, ask_or, invoke. simpl.
  rewrite Hex. simpl. rewrite Hop. simpl. by rewrite Hsplit.
Qed.

(** When the split directory cannot be listed after the split step (the
    path is not a directory, or the splitter has not made it), the run ends
    with [OSError] and the runner is neither constructed nor called. *)
Theorem unlistable_split_dir_raises_OSError a w (w1 : World) (l1 : list call) :
  error_dist_converts a = true →
  split_step a (split_dir a) w = (Ok tt, w1, l1) →
  os_listdir (split_dir a) w1 = None →
  workflow a w = (Raise OSError, w1, l1).
Proof.
  intros Hc Hsplit Hls. rewrite workflow_converted by done.
  unfold after_convert, bind at 1. rewrite Hsplit.
  unfold run_step, bind, ask, ask_or. simpl. rewrite Hls. simpl.
  by rewrite app_nil_r.
Qed.

(** After a split step that returned and with a split directory that can
    be listed, the runner is constructed with the three options and called
    once, with the files the scan of the split directory found before the
    construction, the directory of the output file and the dictionary of
    [build_params].  An exception of the constructor or of the call is the
    outcome of the run; when both return, the outcome is the [NameError] of
    the merge.  The world is the one the last call left. *)
Theorem run_after_split a w (w1 : World) (l1 : list call) (names : list string) :
  error_dist_converts a = true →
  split_step a (split_dir a) w = (Ok tt, w1, l1) →
  os_listdir (split_dir a) w1 = Some names →
  let construct :=
    CallParallelDeblur (jobs_to_start a) (retain_temp_files a) (suppress_polling a) in
  let input_fps := os_glob (split_dir a +:+ "/*") w1 in
  match ParallelDeblur (jobs_to_start a) (retain_temp_files a) (suppress_polling a) w1 with
  | (Raise e, w2) => workflow a w = (Raise e, w2, l1 ++ [construct])
  | (Ok runner, w2) =>
      let run := CallRunner runner input_fps (dirname (output_fp a)) (build_params a) in
      match ParallelDeblur_call runner input_fps (dirname (output_fp a))
              (build_params a) w2 with
      | (Raise e, w3) => workflow a w = (Raise e, w3, l1 ++ [construct; run])
      | (Ok _, w3) =>
          workflow a w
          = (Raise (NameError "merge_otu_tables"), w3, l1 ++ [construct; run])
      end
  end.
Proof.
  intros Hc Hsplit Hls construct input_fps.
  assert (workflow a w =
    match ParallelDeblur (jobs_to_start a) (retain_temp_files a) (suppress_polling a) w1 with
    | (Raise e, w2) => (Raise e, w2, l1 ++ [construct])
    | (Ok runner, w2) =>
        match ParallelDeblur_call runner input_fps (dirname (output_fp a))
                (build_params a) w2 with
        | (Raise e, w3) =>
            (Raise e, w3,
             l1 ++ [construct;
                    CallRunner runner input_fps (dirname (output_fp a)) (build_params a)])
        | (Ok _, w3) =>
            (Raise (NameError "merge_otu_tables"), w3,
             l1 ++ [construct;
                    CallRunner runner input_fps (dirname (output_fp a)) (build_params a)])
        end
    end) as Heq.
  { rewrite workflow_converted by done.
    unfold after_convert, bind at 1. rewrite Hsplit.
    unfold run_step, bind, ask, ask_or, invoke. simpl. rewrite Hls. simpl.
    fold input_fps. fold construct.
    destruct (ParallelDeblur _ _ _ w1) as [[runner|e] w2]; simpl; [|done].
    destruct (ParallelDeblur_call _ _ _ _ w2) as [[[]|e] w3]; simpl; [|done].
    done. }
  destruct (ParallelDeblur _ _ _ w1) as [[runner|e] w2]; [|done].
  by destruct (ParallelDeblur_call _ _ _ _ w2) as [[[]|e] w3].
Qed.

End RunCases.

Lemma unreadable_input_raises_IOError_witness :
  let a := InMemory.default_args "/data/missing.fna" "/out/table.biom" in
  @os_exists InMemory.env (split_dir a) InMemory.w_demo = false
  ∧ @os_open InMemory.env "/data/missing.fna" "U" InMemory.w_demo = None
  ∧ @workflow InMemory.env a InMemory.w_demo = (Raise IOError, InMemory.w_demo, []).
Proof.
  intros a. split; [reflexivity|]. split; [reflexivity|].
  apply (@unreadable_input_raises_IOError InMemory.env a InMemory.w_demo); reflexivity.
Defined.

Lemma splitter_failure_ends_run_witness :
  let E := Scenarios.env_failing_split in
  let a := Scenarios.args_in E "/data/seqs.fna" "/out/table.biom" "0.05" "0.01" in
  @os_exists E (split_dir a) InMemory.w_demo = false
  ∧ @workflow E a InMemory.w_demo
    = (Raise (LibraryError "qiime"), InMemory.w_demo,
       [CallSplit (["S1_0"; "S1_1"; "S2_0"; "S3_0"] : @Handle E)
          "fasta" "/out/split" 500]).
Proof.
  intros E a. split; [reflexivity|].
  apply (@splitter_failure_ends_run E a InMemory.w_demo
           (["S1_0"; "S1_1"; "S2_0"; "S3_0"] : @Handle E)
           (LibraryError "qiime") InMemory.w_demo); reflexivity.
Defined.

Lemma unlistable_split_dir_raises_OSError_witness :
  let a := InMemory.default_args "/data/seqs.fna" "/out/table.biom" in
  @os_exists InMemory.env (split_dir a) Scenarios.w_split_is_file = true
  ∧ @os_listdir InMemory.env (split_dir a) Scenarios.w_split_is_file = None
  ∧ @workflow InMemory.env a Scenarios.w_split_is_file
    = (Raise OSError, Scenarios.w_split_is_file, []).
Proof.
  intros a. split; [reflexivity|]. split; [reflexivity|].
  apply (@unlistable_split_dir_raises_OSError InMemory.env a Scenarios.w_split_is_file);
    reflexivity.
Defined.

Lemma run_after_split_witness :
  let E := Scenarios.env_failing_runner in
  let a := Scenarios.args_in E "/data/seqs.fna" "/out/table.biom" "0.05" "0.01" in
  @os_listdir E (split_dir a) InMemory.w_split = Some ["S1.fasta"; "S2.fasta"]
  ∧ ∃ w3,
      @workflow E a InMemory.w_split
      = (Raise (LibraryError "deblur"), w3,
         [CallParallelDeblur 1 false false;
          CallRunner ((1, false, false) : @Runner E)
            ["/out/split/S1.fasta"; "/out/split/S2.fasta"] "/out" (build_params a)])
      ∧ @os_exists E "/out/S1.fasta.biom" w3 = true
      ∧ @os_exists E "/out/S2.fasta.biom" w3 = false.
Proof.
  intros E a. split; [reflexivity|]. eexists. split.
  - exact (@run_after_split E a InMemory.w_split InMemory.w_split []
             ["S1.fasta"; "S2.fasta"] eq_refl eq_refl eq_refl).
  - split; reflexivity.
Defined.

Section RunShape.
Context `{Env}.

Implicit Types (a : Args) (w : World) (c : call).

(** The calls of a run are, in this order, at most one call of the
    splitter, on the split directory, at most one construction of the
    runner and at most one call of the runner, which is not called without
    having been constructed. *)
Theorem calls_in_order a w :
  ∃ ss ps rs,
    calls (workflow a w) = ss ++ ps ++ rs
    ∧ (ss = [] ∨ ∃ h, ss = [CallSplit h (file_type a) (split_dir a) (buffer_size a)])
    ∧ (ps = []
       ∨ ps = [CallParallelDeblur (jobs_to_start a) (retain_temp_files a)
                 (suppress_polling a)])
    ∧ (rs = []
       ∨ ps ≠ []
         ∧ ∃ r fps, rs = [CallRunner r fps (dirname (output_fp a)) (build_params a)]).
Proof.
  destruct (error_dist_converts a) eqn:Hc.
  2: { rewrite workflow_not_converted by done. exists [], [], []. naive_solver. }
  rewrite workflow_calls, upto_merge_converted by done.
  unfold after_convert, split_step, run_step, bind, ask, ask_or, invoke, calls.
  simpl. destruct (os_exists (split_dir a) w); simpl.
  - destruct (os_listdir (split_dir a) w) as [names|]; simpl.
    2: { exists [], [], []. naive_solver. }
    destruct (ParallelDeblur _ _ _ w) as [[r|e] w2]; simpl.
    2: { exists [], [CallParallelDeblur (jobs_to_start a) (retain_temp_files a)
                      (suppress_polling a)], []. naive_solver. }
    destruct (ParallelDeblur_call _ _ _ _ w2) as [[[]|e] w3]; simpl;
      (eexists [], [_], [_]; split; [reflexivity|]; naive_solver).
  - destruct (os_open (seqs_fp a) "U" w) as [h|]; simpl.
    2: { exists [], [], []. naive_solver. }
    destruct (split_sequence_file_on_sample_ids_to_files _ _ _ _ w) as [[[]|e] w1]; simpl.
    2: { eexists [_], [], []. split; [reflexivity|]. naive_solver. }
    destruct (os_listdir (split_dir a) w1) as [names|]; simpl.
    2: { eexists [_], [], []. split; [reflexivity|]. naive_solver. }
    destruct (ParallelDeblur _ _ _ w1) as [[r|e] w2]; simpl.
    2: { eexists [_], [_], []. split; [reflexivity|]. naive_solver. }
    destruct (ParallelDeblur_call _ _ _ _ w2) as [[[]|e] w3]; simpl;
      (eexists [_], [_], [_]; split; [reflexivity|]; naive_solver).
Qed.


End RunShape.
